(** * rn-logger: a store-and-forward logger for React Native

    Shallow embedding of [src/logger.js] and the properties of its
    connectivity classifier, argument validation, buffer trimming,
    flush coordinator and dispatch engine.

    The module under study is plain JavaScript, so the embedding starts
    with the fragment of JavaScript values the code inspects ([typeof],
    truthiness, strict equality against string literals, property
    reads), then gives each function of the source in the order of the
    source file. *)

From Stdlib Require Import String Ascii List Bool Arith ZArith Lia.
From Stdlib Require Import Sorting.Sorted.
From Stdlib Require Import DecimalString.
Import ListNotations.
Open Scope string_scope.

Set Warnings "-register-all".

(** ** JavaScript values *)

(** The values the logger can be handed.  Objects are ordered property
    lists: for keys that are not array indices (the date strings used by
    the buffer are never indices) [Object.keys] enumerates own
    properties in creation order, and the list keeps that order. *)
Inductive JsVal : Type :=
| JUndefined
| JNull
| JBool (b : bool)
| JNum (n : Z)
| JNaN
| JStr (s : string)
| JBigInt (n : Z)
| JSymbol (description : string)
| JFun (name : string)
| JArr (elems : list JsVal)
| JObj (props : list (string * JsVal)).

(** [typeof v] *)
Definition typeof (v : JsVal) : string :=
  match v with
  | JUndefined => "undefined"
  | JNull => "object"
  | JBool _ => "boolean"
  | JNum _ | JNaN => "number"
  | JStr _ => "string"
  | JBigInt _ => "bigint"
  | JSymbol _ => "symbol"
  | JFun _ => "function"
  | JArr _ | JObj _ => "object"
  end.

(** ToBoolean: what [if (v)], [!v] and [v && ...] test. *)
Definition truthy (v : JsVal) : bool :=
  match v with
  | JUndefined | JNull | JNaN => false
  | JBool b => b
  | JNum n => negb (Z.eqb n 0)
  | JBigInt n => negb (Z.eqb n 0)
  | JStr s => negb (String.eqb s "")
  | JSymbol _ | JFun _ | JArr _ | JObj _ => true
  end.

(** [v === 'lit'] for a string literal. *)
Definition strict_eq_str (v : JsVal) (lit : string) : bool :=
  match v with
  | JStr s => String.eqb s lit
  | _ => false
  end.

(** [v === false] *)
Definition strict_eq_false (v : JsVal) : bool :=
  match v with
  | JBool false => true
  | _ => false
  end.

Definition nullish (v : JsVal) : bool :=
  match v with
  | JUndefined | JNull => true
  | _ => false
  end.

(** Values of primitive type other than [null] and [undefined]. *)
Definition primitive (v : JsVal) : bool :=
  match v with
  | JBool _ | JNum _ | JNaN | JStr _ | JBigInt _ | JSymbol _ => true
  | _ => false
  end.

(** Outcome of evaluating an expression or a call: a value, or an
    exception carrying the thrown value. *)
Inductive Completion (A : Type) : Type :=
| Normal (a : A)
| Throw (e : JsVal).
Arguments Normal {A} a.
Arguments Throw {A} e.

Definition TypeError : JsVal := JStr "TypeError".
Definition SyntaxError : JsVal := JStr "SyntaxError".

Fixpoint assoc (k : string) (props : list (string * JsVal)) : option JsVal :=
  match props with
  | [] => None
  | (k', v) :: rest => if String.eqb k k' then Some v else assoc k rest
  end.

(** [o.name] for a name that no primitive wrapper, array or function
    defines (such as [cellularGeneration]): reading it off [null] or
    [undefined] throws a TypeError, every other value answers, with
    [undefined] when the property is missing. *)
Definition get_prop (o : JsVal) (name : string) : Completion JsVal :=
  match o with
  | JUndefined | JNull => Throw TypeError
  | JObj props =>
      match assoc name props with
      | Some v => Normal v
      | None => Normal JUndefined
      end
  | _ => Normal JUndefined
  end.

(** ** Connectivity classifier *)

(** [checkUserIsBackOnFullConnection].  The guard of the cellular branch
    is a chain of [&&]: each conjunct is evaluated only when the ones
    before it are truthy, so [connectionDetails] is read only for a
    previous generation that is truthy and not "4g". *)
Definition checkUserIsBackOnFullConnection
    (prevConnectionType prevConnectionDetails
     connectionType connectionDetails : JsVal) : Completion bool :=
  if negb (truthy prevConnectionType) && strict_eq_str connectionType "wifi"
  then Normal true
  else if strict_eq_str prevConnectionType "none"
          && strict_eq_str connectionType "wifi"
  then Normal true
  else if strict_eq_str prevConnectionType "unknow"
          && strict_eq_str connectionType "wifi"
  then Normal true
  else if strict_eq_str prevConnectionType "cellular" then
    match get_prop prevConnectionDetails "cellularGeneration" with
    | Throw e => Throw e
    | Normal prevGen =>
        if truthy prevGen && negb (strict_eq_str prevGen "4g") then
          match get_prop connectionDetails "cellularGeneration" with
          | Throw e => Throw e
          | Normal gen =>
              if truthy gen && strict_eq_str gen "4g"
              then Normal true
              else Normal false
          end
        else Normal false
    end
  else Normal false.

(** ** Objects as ordered property lists *)

Definition string_of_nat (n : nat) : string :=
  NilZero.string_of_uint (Nat.to_uint n).

Fixpoint indexed (i : nat) (elems : list JsVal) : list (string * JsVal) :=
  match elems with
  | [] => []
  | v :: rest => (string_of_nat i, v) :: indexed (S i) rest
  end.

Fixpoint chars (s : string) : list JsVal :=
  match s with
  | EmptyString => []
  | String c rest => JStr (String c EmptyString) :: chars rest
  end.

(** Own enumerable string-keyed properties, in enumeration order. *)
Definition own_props (v : JsVal) : list (string * JsVal) :=
  match v with
  | JObj props => props
  | JArr elems => indexed 0 elems
  | JStr s => indexed 0 (chars s)
  | _ => []
  end.

(** [Object.keys(v)]: throws on [null] and [undefined]. *)
Definition Object_keys (v : JsVal) : Completion (list string) :=
  match v with
  | JUndefined | JNull => Throw TypeError
  | _ => Normal (map fst (own_props v))
  end.

(** [v[key]] for a key taken from [Object.keys(v)]. *)
Definition own_get (v : JsVal) (key : string) : JsVal :=
  match assoc key (own_props v) with
  | Some x => x
  | None => JUndefined
  end.

(** [obj[key] = v]: an existing property keeps its place and takes the
    new value, a new property is created after all the others. *)
Fixpoint obj_set (props : list (string * JsVal)) (key : string) (v : JsVal)
  : list (string * JsVal) :=
  match props with
  | [] => [(key, v)]
  | (k, x) :: rest =>
      if String.eqb key k then (k, v) :: rest
      else (k, x) :: obj_set rest key v
  end.

(** ** Effects and collaborators *)

(** The calls the logger makes to the outside world. *)
Inductive Effect : Type :=
| CheckAsyncStorage
| SaveInAsyncStorage (text : string)
| AsyncRemoveItem
| SendLog (type message extra : JsVal)
| BulkSendLog (logs : JsVal)
| NetInfoFetch
| ConsoleLog (args : list JsVal)
| ConsoleWarn (args : list JsVal)
| ConsoleError (args : list JsVal).

(** The persisted buffer: the text stored under the [LOGGER] key, which
    is the only key the logger reads or writes. *)
Definition Store : Type := option string.

(** What [NetInfo.fetch()] resolves to. *)
Record NetInfoState : Type := {
  isConnected : JsVal;
  state_type : JsVal;
  details : JsVal
}.

(** The behaviour of everything the module imports or finds in its
    global scope.  Each outcome is what the corresponding promise
    settles to ([Throw] for a rejection, which [await] rethrows). *)
Record Env : Type := {
  DEV : bool;
  MAX_LOCAL_ERROR_LOG_SIZE : Z;
  JSON_parse : string -> Completion JsVal;
  JSON_stringify : JsVal -> Completion string;
  ToString : JsVal -> string;
  Date_string : string;
  storage_read : Completion unit;
  storage_save : bool;
  storage_remove : Completion JsVal;
  bulk_result : JsVal -> Completion JsVal;
  fetch_result : Completion NetInfoState
}.

(** A computation reads and updates the store, may throw, and emits the
    calls it made, in order. *)
Definition M (A : Type) : Type :=
  Store -> Completion A * Store * list Effect.

Definition ret {A} (a : A) : M A := fun s => (Normal a, s, []).

Definition throw {A} (e : JsVal) : M A := fun s => (Throw e, s, []).

Definition bind {A B} (m : M A) (k : A -> M B) : M B :=
  fun s =>
    match m s with
    | (Normal a, s1, t1) =>
        match k a s1 with
        | (r, s2, t2) => (r, s2, (t1 ++ t2)%list)
        end
    | (Throw e, s1, t1) => (Throw e, s1, t1)
    end.

(** [try { m } catch (e) { handler e }] *)
Definition try_catch {A} (m : M A) (handler : JsVal -> M A) : M A :=
  fun s =>
    match m s with
    | (Normal a, s1, t1) => (Normal a, s1, t1)
    | (Throw e, s1, t1) =>
        match handler e s1 with
        | (r, s2, t2) => (r, s2, (t1 ++ t2)%list)
        end
    end.

Definition lift {A} (c : Completion A) : M A :=
  fun s => (c, s, []).

Definition emit (e : Effect) : M unit := fun s => (Normal tt, s, [e]).

Declare Scope js_scope.
Delimit Scope js_scope with js.
Notation "x <- m ;; k" := (bind m (fun x => k))
  (at level 61, m at next level, right associativity) : js_scope.
Notation "m ;; k" := (bind m (fun _ => k))
  (at level 61, right associativity) : js_scope.
Open Scope js_scope.

Definition result {A} (r : Completion A * Store * list Effect) : Completion A :=
  fst (fst r).
Definition store_after {A} (r : Completion A * Store * list Effect) : Store :=
  snd (fst r).
Definition effects {A} (r : Completion A * Store * list Effect) : list Effect :=
  snd r.

(** What [checkAsyncStorage] resolves to. *)
Inductive Stored : Type :=
| Absent
| Text (s : string).

Definition stored_value (x : Stored) : JsVal :=
  match x with
  | Absent => JBool false
  | Text s => JStr s
  end.

(** ** The logger *)

Section Logger.

Variable env : Env.

(** Modelled from the spec: [checkAsyncStorage] of [./helpers/common],
    which is not part of the sources.  It is the store's [get(key) ->
    text | absent]; the callers test the answer against [false], so
    absence is [false].  A store that cannot be read rejects. *)
Definition checkAsyncStorage : M Stored :=
  fun s =>
    match storage_read env with
    | Throw e => (Throw e, s, [CheckAsyncStorage])
    | Normal _ =>
        (Normal match s with None => Absent | Some text => Text text end,
         s, [CheckAsyncStorage])
    end.

(** Modelled from the spec: [saveInAsyncStorage] of [./helpers/common],
    the store's [set(key, text) -> success | failure].  The logger never
    awaits it and never looks at its outcome. *)
Definition saveInAsyncStorage (text : string) : M unit :=
  fun s =>
    (Normal tt, if storage_save env then Some text else s,
     [SaveInAsyncStorage text]).

(** Modelled from the spec: [asyncRemoveItem] of [./helpers/common], the
    store's [remove(key) -> success | failure].  It resolves to an error
    value when the removal failed and to a falsy value when the key is
    gone; on failure, and on rejection, the stored text stays. *)
Definition asyncRemoveItem : M JsVal :=
  fun s =>
    match storage_remove env with
    | Throw e => (Throw e, s, [AsyncRemoveItem])
    | Normal error =>
        (Normal error, if truthy error then s else None, [AsyncRemoveItem])
    end.

(** Modelled from the spec: [bulkSendLog] of [../services/logger], the
    remote sink's [sendBatch(entries) -> success | failure]. *)
Definition bulkSendLog (logs : JsVal) : M JsVal :=
  fun s => (bulk_result env logs, s, [BulkSendLog logs]).

(** Modelled from the spec: [sendLog] of [../services/logger], the
    remote sink's [sendOne]; its outcome is never looked at. *)
Definition sendLog (type message extra : JsVal) : M unit :=
  emit (SendLog type message extra).

Definition NetInfo_fetch : M NetInfoState :=
  fun s => (fetch_result env, s, [NetInfoFetch]).

Definition console_log (args : list JsVal) : M unit := emit (ConsoleLog args).
Definition console_warn (args : list JsVal) : M unit := emit (ConsoleWarn args).
Definition console_error (args : list JsVal) : M unit := emit (ConsoleError args).

(** [attemptToEmptyLocalLogs] *)
Definition attemptToEmptyLocalLogs : M unit :=
  try_catch
    (existingErrorLog <- checkAsyncStorage ;;
     if truthy (stored_value existingErrorLog) then
       match existingErrorLog with
       | Text text =>
           arryOfLogs <- lift (JSON_parse env text) ;;
           try_catch
             (result <- bulkSendLog arryOfLogs ;;
              if truthy result then
                try_catch
                  (error <- asyncRemoveItem ;;
                   if truthy error then
                     console_error
                       [JStr "[RNCustomLogger] Couldn't clear logs from local Storage. More detail below";
                        error]
                   else ret tt)
                  (fun errorClearingAsyncStorage =>
                     console_error
                       [JStr "[RNCustomLogger] Couldn't clear logs from local Storage. More detail below";
                        errorClearingAsyncStorage])
              else ret tt)
             (fun errorSendingBulkLog =>
                console_error
                  [JStr "[RNCustomLogger] Couldn't send logs in bulk. More detail below";
                   errorSendingBulkLog])
       | Absent => ret tt
       end
     else ret tt)
    (fun error =>
       console_error
         [JStr "[RNCustomLogger] Couldn't access local Storage. More detail below"]).

(** [checkArguments] *)
Definition checkArguments (type message extra : JsVal) : M bool :=
  if String.eqb (typeof type) "string"
     && String.eqb (typeof message) "string"
     && String.eqb (typeof extra) "object"
  then ret true
  else
    (if DEV env then
       console_warn
         [JStr "[RNCustomLogger] you passed invalid arguments, message should be a string and extra should be an object"]
     else ret tt) ;;
    ret false.

(** A template placeholder: a string is spliced in as it is, any other
    value through its string conversion. *)
Definition interpolate (v : JsVal) : string :=
  match v with
  | JStr s => s
  | _ => ToString env v
  end.

(** [{ ...v }]: [null] and [undefined] spread to nothing. *)
Definition spread (v : JsVal) : list (string * JsVal) := own_props v.

(** [formatLogEntry].  The key is the current date converted to a
    string; [JSON.stringify] throws on a value it cannot serialise. *)
Definition formatLogEntry (type message extra parsedErrorLog : JsVal)
  : Completion JsVal :=
  let newLog := spread parsedErrorLog in
  match JSON_stringify env extra with
  | Throw e => Throw e
  | Normal text =>
      Normal (JObj (obj_set newLog (Date_string env)
                      (JStr (interpolate type ++ " - " ++ interpolate message
                             ++ " - extra data : " ++ text))))
  end.

(** The loop of [removeKeysFromErrorLog]: [index] runs down from the
    number of keys while [index > currentLogLength / 2], a division of
    numbers, so the test is [2 * index > currentLogLength]. *)
Fixpoint removeKeys_loop (parsedErrorLog : JsVal) (keys : list string)
    (currentLogLength index : nat) (newLog : list (string * JsVal))
  : list (string * JsVal) :=
  match index with
  | O => newLog
  | S i =>
      if (currentLogLength <? 2 * index)%nat then
        let key := nth i keys "undefined" in
        removeKeys_loop parsedErrorLog keys currentLogLength i
          (obj_set newLog key (own_get parsedErrorLog key))
      else newLog
  end.

(** [removeKeysFromErrorLog] *)
Definition removeKeysFromErrorLog (parsedErrorLog : JsVal) : Completion JsVal :=
  match Object_keys parsedErrorLog with
  | Throw e => Throw e
  | Normal keys =>
      let currentLogLength := length keys in
      Normal (JObj (removeKeys_loop parsedErrorLog keys
                      currentLogLength currentLogLength []))
  end.

(** [JSON.stringify(formatLogEntry(...))] handed to the store. *)
Definition saveEntry (type message extra parsedErrorLog : JsVal) : M unit :=
  newLog <- lift (formatLogEntry type message extra parsedErrorLog) ;;
  text <- lift (JSON_stringify env newLog) ;;
  saveInAsyncStorage text.

(** [logLocally].  Strings are sequences of 8-bit characters here, and
    the size estimate counts those. *)
Definition logLocally (type message extra : JsVal) : M unit :=
  if strict_eq_str type "warn" || strict_eq_str type "error" then
    try_catch
      (existingErrorLog <- checkAsyncStorage ;;
       match existingErrorLog with
       | Absent => saveEntry type message extra JNull
       | Text text =>
           let errorLogSize := (Z.of_nat (String.length text) * 8)%Z in
           parsedErrorLog <- lift (JSON_parse env text) ;;
           if (errorLogSize <? MAX_LOCAL_ERROR_LOG_SIZE env)%Z then
             saveEntry type message extra parsedErrorLog
           else
             slicedLog <- lift (removeKeysFromErrorLog parsedErrorLog) ;;
             saveEntry type message extra slicedLog
       end)
      (fun error =>
         console_error
           [JStr "[RNCustomLogger] couldn't log locally. Error detail below";
            error])
  else ret tt.

(** The test of [mainLog] on the probed state: connected, and on wifi
    or on "4g" cellular. *)
Definition strongConnection (isConnected connectionType cellularGeneration : JsVal)
  : bool :=
  truthy isConnected
  && (strict_eq_str connectionType "wifi"
      || (strict_eq_str connectionType "cellular"
          && strict_eq_str cellularGeneration "4g")).

(** [mainLog].  The promise chain started by [NetInfo.fetch()] runs
    after [mainLog] has returned [null]; the embedding runs it to its
    end before handing back the store. *)
Definition mainLog (type message extra : JsVal) : M JsVal :=
  if DEV env then
    _ <- checkArguments type message extra ;;
    console_log [JStr "[RNCustomLogger] "; type; message; extra] ;;
    ret (JBool true)
  else
    ok <- checkArguments type message extra ;;
    if negb ok then ret (JBool false)
    else
      try_catch
        (state <- NetInfo_fetch ;;
         let connectionType := state_type state in
         cellularGeneration <-
           (if strict_eq_str connectionType "cellular"
            then lift (get_prop (details state) "cellularGeneration")
            else ret JNull) ;;
         if strongConnection (isConnected state) connectionType cellularGeneration
         then sendLog type message extra
         else logLocally type message extra)
        (fun error =>
           console_error
             [JStr "[RNCustomLogger] Error fetching connection state"; error]) ;;
      ret JNull.

(** A parameter with default [null]: the default applies when the
    argument is omitted or [undefined]. *)
Definition default_null (extra : JsVal) : JsVal :=
  match extra with
  | JUndefined => JNull
  | _ => extra
  end.

Definition log (message extra : JsVal) : M JsVal :=
  mainLog (JStr "log") message (default_null extra) ;; ret JUndefined.

Definition warn (message extra : JsVal) : M JsVal :=
  mainLog (JStr "warn") message (default_null extra) ;; ret JUndefined.

Definition error (message extra : JsVal) : M JsVal :=
  mainLog (JStr "error") message (default_null extra) ;; ret JUndefined.

End Logger.

(** * Vocabulary of the properties *)

(** ** Connectivity *)

(** The cellular generation a details value reports: none when there is
    no details object to read it from. *)
Definition cellularGeneration (connectionDetails : JsVal) : JsVal :=
  match get_prop connectionDetails "cellularGeneration" with
  | Normal g => g
  | Throw _ => JUndefined
  end.

(** A generation is present when the details report a truthy one, which
    is how the source tests it.  NetInfo reports [null] or one of the
    non-empty strings "2g", "3g", "4g", for which truthy and non-null
    are the same thing. *)
Definition generationPresent (connectionDetails : JsVal) : Prop :=
  truthy (cellularGeneration connectionDetails) = true.

Definition topTier (connectionDetails : JsVal) : Prop :=
  cellularGeneration connectionDetails = JStr "4g".

(** The upgrade of rule 3: previous generation present and not "4g",
    current generation "4g". *)
Definition generationUpgrade (prevConnectionDetails connectionDetails : JsVal)
  : Prop :=
  generationPresent prevConnectionDetails
  /\ ~ topTier prevConnectionDetails
  /\ topTier connectionDetails.

(** ** Flush and dispatch *)


Definition noSend (calls : list Effect) : Prop :=
  forall logs, ~ In (BulkSendLog logs) calls.

(** The severities [logLocally] buffers. *)
Definition severe (type : JsVal) : bool :=
  strict_eq_str type "warn" || strict_eq_str type "error".

(** The generation [mainLog] reads off the probed state. *)
Definition probedGeneration (state : NetInfoState) : Completion JsVal :=
  if strict_eq_str (state_type state) "cellular"
  then get_prop (details state) "cellularGeneration"
  else Normal JNull.

(** The probe reports a connection that is not strong: disconnected, or
    a medium other than wifi and "4g" cellular. *)
Definition poorConnection (state : NetInfoState) : Prop :=
  exists gen,
    probedGeneration state = Normal gen
    /\ strongConnection (isConnected state) (state_type state) gen = false.

(** The log a new entry is added to: nothing for an empty store, the
    parsed text below the size ceiling, its trimmed half from the
    ceiling on. *)
Definition priorLog (env : Env) (s : Store) : Completion JsVal :=
  match s with
  | None => Normal JNull
  | Some text =>
      match JSON_parse env text with
      | Throw e => Throw e
      | Normal parsedErrorLog =>
          if (Z.of_nat (String.length text) * 8
              <? MAX_LOCAL_ERROR_LOG_SIZE env)%Z
          then Normal parsedErrorLog
          else removeKeysFromErrorLog parsedErrorLog
      end
  end.

(** The text that buffering the event stores, when the store can be
    read, its text parsed and the new log serialised. *)
Definition bufferedText (env : Env) (type message extra : JsVal) (s : Store)
  : Completion string :=
  match storage_read env with
  | Throw e => Throw e
  | Normal _ =>
      match priorLog env s with
      | Throw e => Throw e
      | Normal prior =>
          match formatLogEntry env type message extra prior with
          | Throw e => Throw e
          | Normal newLog => JSON_stringify env newLog
          end
      end
  end.

(** The run wrote the event to the local buffer. *)
Definition written {A} (r : Completion A * Store * list Effect) : Prop :=
  exists text, In (SaveInAsyncStorage text) (effects r).

(** ** Buffers in time *)

Definition keys (props : list (string * JsVal)) : list string := map fst props.

Section Chronology.

(** The instant, in seconds, that a date-string key denotes. *)
Variable instant : string -> nat.

Definition older (p q : string * JsVal) : Prop :=
  instant (fst p) < instant (fst q).

(** Enumeration order is chronological order, oldest entry first. *)
Definition chronological (props : list (string * JsVal)) : Prop :=
  StronglySorted older props.

(** How many entries of the buffer are strictly newer than key [k]. *)
Definition newerCount (k : string) (props : list (string * JsVal)) : nat :=
  length (filter (fun p => (instant k <? instant (fst p))%nat) props).

(** The [n] chronologically newest entries: those with fewer than [n]
    entries newer than them. *)
Definition amongNewest (n : nat) (props : list (string * JsVal))
    (entry : string * JsVal) : Prop :=
  In entry props /\ newerCount (fst entry) props < n.

End Chronology.

(** ** Calls by kind *)

(** The three [typeof] tests of [checkArguments]. *)
Definition validArguments (type message extra : JsVal) : bool :=
  String.eqb (typeof type) "string"
  && String.eqb (typeof message) "string"
  && String.eqb (typeof extra) "object".

(** Calls to the persistent store. *)
Definition storageCall (e : Effect) : Prop :=
  match e with
  | CheckAsyncStorage | SaveInAsyncStorage _ | AsyncRemoveItem => True
  | _ => False
  end.


(** The calls [attemptToEmptyLocalLogs] can make. *)
Definition flushCall (e : Effect) : Prop :=
  match e with
  | CheckAsyncStorage | BulkSendLog _ | AsyncRemoveItem | ConsoleError _ => True
  | _ => False
  end.


(** The text of a buffered entry. *)
Definition entryText (type message serialised : string) : string :=
  type ++ " - " ++ message ++ " - extra data : " ++ serialised.

(** ** Sample environments and buffers *)

Definition offline : NetInfoState :=
  {| isConnected := JBool false; state_type := JStr "none"; details := JNull |}.

Definition digit (n : nat) : string :=
  String (ascii_of_nat (48 + n)) EmptyString.

Definition quoted (s : string) : string :=
  String (ascii_of_nat 34) s ++ String (ascii_of_nat 34) EmptyString.

(** [JSON.stringify] on the values the samples use: [null], strings
    without characters to escape, and objects of such strings.  A
    BigInt makes [JSON.stringify] throw. *)
Definition sampleMember (p : string * JsVal) : string :=
  quoted (fst p) ++ ":"
  ++ match snd p with
     | JStr v => quoted v
     | _ => "null"
     end.

Definition sampleStringify (v : JsVal) : Completion string :=
  match v with
  | JNull => Normal "null"
  | JStr s => Normal (quoted s)
  | JObj props => Normal ("{" ++ String.concat "," (map sampleMember props) ++ "}")
  | JBigInt _ => Throw TypeError
  | _ => Normal "{}"
  end.

(** [JSON.parse] on the one stored text the samples use. *)
Definition sampleParse (text : string) : Completion JsVal :=
  if String.eqb text "{}" then Normal (JObj []) else Throw SyntaxError.

(** The key [new Date()] gives at second [30 + n] of a sample minute. *)
Definition sampleKey (n : nat) : string :=
  "Tue Aug 19 1975 23:15:3" ++ digit n ++ " GMT+0100 (British Summer Time)".

(** The instant of a sample key: the sample keys differ in their last
    digit of the seconds only. *)
Definition sampleInstant (key : string) : nat :=
  match String.get 23 key with
  | Some c => nat_of_ascii c - 48
  | None => 0
  end.

Definition sampleEntry (n : nat) : string * JsVal :=
  (sampleKey n, JStr ("error - crash " ++ digit n ++ " - extra data : null")).

(** A production environment, offline, at second [30 + n] of the sample
    minute; [read] is how the store answers a read. *)
Definition sampleEnv (read : Completion unit) (n : nat) : Env :=
  {| DEV := false;
     MAX_LOCAL_ERROR_LOG_SIZE := 4096;
     JSON_parse := sampleParse;
     JSON_stringify := sampleStringify;
     ToString := fun _ => "";
     Date_string := sampleKey n;
     storage_read := read;
     storage_save := true;
     storage_remove := Normal JUndefined;
     bulk_result := fun _ => Normal (JBool true);
     fetch_result := Normal offline |}.

(** Every collaborator answers. *)
Definition production : Env := sampleEnv (Normal tt) 0.


Definition atSecond (n : nat) : Env := sampleEnv (Normal tt) n.

(** Logging an error with no extra at second [30 + n]. *)
Definition crashAt (n : nat) (parsedErrorLog : JsVal) : Completion JsVal :=
  formatLogEntry (atSecond n) (JStr "error") (JStr ("crash " ++ digit n)) JNull
    parsedErrorLog.

(** A development build. *)
Definition sampleEnvDev : Env :=
  {| DEV := true;
     MAX_LOCAL_ERROR_LOG_SIZE := 4096;
     JSON_parse := sampleParse;
     JSON_stringify := sampleStringify;
     ToString := fun _ => "";
     Date_string := sampleKey 0;
     storage_read := Normal tt;
     storage_save := true;
     storage_remove := Normal JUndefined;
     bulk_result := fun _ => Normal (JBool true);
     fetch_result := Normal offline |}.

(** A production build whose probe settles as given. *)
Definition probing (fetch : Completion NetInfoState) : Env :=
  {| DEV := false;
     MAX_LOCAL_ERROR_LOG_SIZE := 4096;
     JSON_parse := sampleParse;
     JSON_stringify := sampleStringify;
     ToString := fun _ => "";
     Date_string := sampleKey 0;
     storage_read := Normal tt;
     storage_save := true;
     storage_remove := Normal JUndefined;
     bulk_result := fun _ => Normal (JBool true);
     fetch_result := fetch |}.

Definition onWifi : NetInfoState :=
  {| isConnected := JBool true;
     state_type := JStr "wifi";
     details := JObj [("isConnectionExpensive", JBool false)] |}.

(** [JSON.parse] that also reads back the one-entry log of the samples. *)
Definition sampleParseEntry (text : string) : Completion JsVal :=
  if String.eqb text ("{" ++ sampleMember (sampleEntry 0) ++ "}")
  then Normal (JObj [sampleEntry 0])
  else sampleParse text.

(** A production build with that parser, at second 30. *)
Definition flushing : Env :=
  {| DEV := false;
     MAX_LOCAL_ERROR_LOG_SIZE := 4096;
     JSON_parse := sampleParseEntry;
     JSON_stringify := sampleStringify;
     ToString := fun _ => "";
     Date_string := sampleKey 0;
     storage_read := Normal tt;
     storage_save := true;
     storage_remove := Normal JUndefined;
     bulk_result := fun _ => Normal (JBool true);
     fetch_result := Normal offline |}.

(** * Properties *)

(** ** Connectivity classifier *)

Lemma strict_eq_str_true v lit :
  strict_eq_str v lit = true <-> v = JStr lit.
Proof.
  destruct v; simpl; split; intro H; try discriminate.
  - apply String.eqb_eq in H. now subst.
  - injection H as ->. apply String.eqb_refl.
Qed.

Lemma strict_eq_str_false v lit :
  strict_eq_str v lit = false <-> v <> JStr lit.
Proof.
  rewrite <- strict_eq_str_true. destruct (strict_eq_str v lit); intuition congruence.
Qed.

Lemma truthy_generation_not_nullish g :
  truthy g = true -> nullish g = false.
Proof. destruct g; simpl; congruence. Qed.

(** On the values NetInfo reports, presence is being non-null. *)
Lemma netinfo_generation_present g :
  g = JNull \/ g = JStr "2g" \/ g = JStr "3g" \/ g = JStr "4g" ->
  truthy g = negb (nullish g).
Proof. intros [-> | [-> | [-> | ->]]]; reflexivity. Qed.

(** The cellular branch, once reached, answers [true] exactly on a
    generation upgrade, whatever the current medium is. *)
Lemma cellular_branch prevConnectionDetails connectionType connectionDetails :
  checkUserIsBackOnFullConnection
    (JStr "cellular") prevConnectionDetails connectionType connectionDetails
  = Normal true
  <-> generationUpgrade prevConnectionDetails connectionDetails.
Proof.
  unfold checkUserIsBackOnFullConnection, generationUpgrade,
    generationPresent, topTier, cellularGeneration.
  cbn [truthy strict_eq_str negb andb String.eqb Ascii.eqb Bool.eqb].
  destruct (get_prop prevConnectionDetails "cellularGeneration")
    as [prevGen | e].
  - destruct (truthy prevGen) eqn:Ht; cbn [andb].
    + destruct (strict_eq_str prevGen "4g") eqn:H4; cbn [negb].
      * apply strict_eq_str_true in H4. split; [discriminate | tauto].
      * apply strict_eq_str_false in H4.
        destruct (get_prop connectionDetails "cellularGeneration") as [gen | e].
        -- destruct (strict_eq_str gen "4g") eqn:G4.
           ++ apply strict_eq_str_true in G4. subst gen. cbn. tauto.
           ++ apply strict_eq_str_false in G4. rewrite andb_false_r.
              split; [discriminate | tauto].
        -- split; [discriminate | intros (_ & _ & H); discriminate].
    + split; [discriminate | intros (H & _); discriminate].
  - split; [discriminate | intros (H & _); discriminate].
Qed.

(** C2: for a pair whose previous and current media are both cellular,
    the classifier returns [true] if and only if the previous generation
    is present and not "4g" and the current generation is "4g"; with the
    previous generation absent it never returns [true]. *)
Theorem cellular_pair_upgrade_iff
    prevConnectionType prevConnectionDetails connectionType connectionDetails :
  prevConnectionType = JStr "cellular" ->
  connectionType = JStr "cellular" ->
  (checkUserIsBackOnFullConnection
     prevConnectionType prevConnectionDetails connectionType connectionDetails
   = Normal true
   <-> generationPresent prevConnectionDetails
       /\ ~ topTier prevConnectionDetails
       /\ topTier connectionDetails)
  /\ (~ generationPresent prevConnectionDetails ->
      checkUserIsBackOnFullConnection
        prevConnectionType prevConnectionDetails connectionType connectionDetails
      <> Normal true).
Proof.
  intros -> ->. split.
  - apply cellular_branch.
  - intros Habsent H. apply cellular_branch in H. destruct H as (H & _). tauto.
Qed.

Lemma cellular_pair_upgrade_iff_witness :
  checkUserIsBackOnFullConnection
    (JStr "cellular") (JObj [("cellularGeneration", JStr "3g")])
    (JStr "cellular") (JObj [("cellularGeneration", JStr "4g")])
  = Normal true
  <-> generationPresent (JObj [("cellularGeneration", JStr "3g")])
      /\ ~ topTier (JObj [("cellularGeneration", JStr "3g")])
      /\ topTier (JObj [("cellularGeneration", JStr "4g")]).
Proof.
  exact (proj1 (cellular_pair_upgrade_iff
                  (JStr "cellular") (JObj [("cellularGeneration", JStr "3g")])
                  (JStr "cellular") (JObj [("cellularGeneration", JStr "4g")])
                  eq_refl eq_refl)).
Defined.

(** When the current medium is not wifi and the pair is not a generation
    upgrade, the classifier never answers [true]: it answers [false] or
    throws. *)
Lemma not_wifi_not_upgrade_never_true
    prevConnectionType prevConnectionDetails connectionType connectionDetails :
  connectionType <> JStr "wifi" ->
  ~ generationUpgrade prevConnectionDetails connectionDetails ->
  checkUserIsBackOnFullConnection
    prevConnectionType prevConnectionDetails connectionType connectionDetails
  <> Normal true.
Proof.
  intros Hwifi Hup H.
  destruct (strict_eq_str prevConnectionType "cellular") eqn:Hc.
  - apply strict_eq_str_true in Hc. subst.
    apply cellular_branch in H. contradiction.
  - apply strict_eq_str_false in Hwifi.
    unfold checkUserIsBackOnFullConnection in H.
    rewrite Hwifi, Hc, !andb_false_r in H. discriminate.
Qed.

(** With both details objects at hand the answer is [false]. *)
Lemma not_wifi_not_upgrade_false
    prevConnectionType prevConnectionDetails connectionType connectionDetails :
  connectionType <> JStr "wifi" ->
  nullish prevConnectionDetails = false ->
  nullish connectionDetails = false ->
  ~ generationUpgrade prevConnectionDetails connectionDetails ->
  checkUserIsBackOnFullConnection
    prevConnectionType prevConnectionDetails connectionType connectionDetails
  = Normal false.
Proof.
  intros Hwifi Hp Hc Hup.
  pose proof (not_wifi_not_upgrade_never_true
                prevConnectionType _ _ _ Hwifi Hup) as Hne.
  unfold checkUserIsBackOnFullConnection in *.
  assert (Pd : exists g, get_prop prevConnectionDetails "cellularGeneration" = Normal g).
  { destruct prevConnectionDetails; simpl in *; try discriminate; eauto.
    destruct (assoc _ _); eauto. }
  assert (Cd : exists g, get_prop connectionDetails "cellularGeneration" = Normal g).
  { destruct connectionDetails; simpl in *; try discriminate; eauto.
    destruct (assoc _ _); eauto. }
  destruct Pd as [pg Pd], Cd as [cg Cd]. rewrite Pd, Cd in *.
  repeat match goal with
         | |- context [if ?b then _ else _] => destruct b
         end; congruence.
Qed.

(** C3: the claim asks for [false] on every pair whose current medium is
    not wifi and which is not a generation upgrade.  Leaving a "3g"
    cellular link for no connection is such a pair: NetInfo reports no
    details for medium "none", and the classifier, which reads the
    current generation without checking for the details, throws. *)
Theorem cellular_to_none_throws :
  JStr "none" <> JStr "wifi"
  /\ ~ generationUpgrade (JObj [("cellularGeneration", JStr "3g")]) JNull
  /\ checkUserIsBackOnFullConnection
       (JStr "cellular") (JObj [("cellularGeneration", JStr "3g")])
       (JStr "none") JNull
     = Throw TypeError.
Proof.
  split; [discriminate |]. split; [| reflexivity].
  intros (_ & _ & H). discriminate H.
Qed.

(** Rules 1 and 2 as the source has them: a falsy previous medium,
    "none", or the literal "unknow", followed by wifi. *)
Lemma offline_to_wifi_true prevConnectionType prevConnectionDetails connectionDetails :
  truthy prevConnectionType = false
  \/ prevConnectionType = JStr "none"
  \/ prevConnectionType = JStr "unknow" ->
  checkUserIsBackOnFullConnection
    prevConnectionType prevConnectionDetails (JStr "wifi") connectionDetails
  = Normal true.
Proof.
  unfold checkUserIsBackOnFullConnection.
  intros [H | [-> | ->]]; [rewrite H |..]; reflexivity.
Qed.

(** C7: the claim asks for [true] when the previous medium is absent,
    "none" or "unknown" and the current one is wifi.  The source
    compares against "unknow", so NetInfo's "unknown" falls through to
    the final [return false]. *)
Theorem unknown_to_wifi_false :
  checkUserIsBackOnFullConnection
    (JStr "unknown") JNull
    (JStr "wifi") (JObj [("isConnectionExpensive", JBool false)])
  = Normal false.
Proof. reflexivity. Qed.

(** C9: with a cellular previous medium and no previous details ([null]
    or [undefined]) the classifier throws, whatever the current snapshot
    is, and so returns no boolean. *)
Theorem cellular_without_details_throws
    prevConnectionType prevConnectionDetails connectionType connectionDetails :
  prevConnectionType = JStr "cellular" ->
  nullish prevConnectionDetails = true ->
  checkUserIsBackOnFullConnection
    prevConnectionType prevConnectionDetails connectionType connectionDetails
  = Throw TypeError
  /\ forall b : bool,
       checkUserIsBackOnFullConnection
         prevConnectionType prevConnectionDetails connectionType connectionDetails
       <> Normal b.
Proof.
  intros -> Hnull.
  assert (H : checkUserIsBackOnFullConnection
                (JStr "cellular") prevConnectionDetails
                connectionType connectionDetails = Throw TypeError).
  { unfold checkUserIsBackOnFullConnection.
    cbn [truthy strict_eq_str negb andb String.eqb Ascii.eqb Bool.eqb].
    destruct prevConnectionDetails; try discriminate; reflexivity. }
  split; [exact H | intros b Hb; congruence].
Qed.

Lemma cellular_without_details_throws_witness :
  checkUserIsBackOnFullConnection
    (JStr "cellular") JNull
    (JStr "cellular") (JObj [("cellularGeneration", JStr "4g")])
  = Throw TypeError.
Proof.
  exact (proj1 (cellular_without_details_throws
                  (JStr "cellular") JNull
                  (JStr "cellular") (JObj [("cellularGeneration", JStr "4g")])
                  eq_refl eq_refl)).
Defined.

(** When the previous medium is not cellular the classifier reads no
    details and always returns a boolean. *)
Lemma not_cellular_total
    prevConnectionType prevConnectionDetails connectionType connectionDetails :
  prevConnectionType <> JStr "cellular" ->
  exists b,
    checkUserIsBackOnFullConnection
      prevConnectionType prevConnectionDetails connectionType connectionDetails
    = Normal b.
Proof.
  intros H. apply strict_eq_str_false in H.
  unfold checkUserIsBackOnFullConnection. rewrite H.
  repeat match goal with
         | |- context [if ?b then _ else _] => destruct b
         end; eauto.
Qed.

(** ** Argument validation *)

(** The verdict of [checkArguments] is the conjunction of its three
    [typeof] tests. *)
Lemma checkArguments_result env type message extra s :
  result (checkArguments env type message extra s)
  = Normal (String.eqb (typeof type) "string"
            && String.eqb (typeof message) "string"
            && String.eqb (typeof extra) "object").
Proof.
  unfold checkArguments.
  destruct (String.eqb (typeof type) "string"
            && String.eqb (typeof message) "string"
            && String.eqb (typeof extra) "object"); [reflexivity |].
  destruct (DEV env); reflexivity.
Qed.

(** C10: with textual severity and message, [checkArguments] accepts
    [null] and arrays as [extra] and rejects [undefined] and every
    primitive; [log], [warn] and [error] turn an omitted [extra] into
    [null], which passes the check. *)
Theorem checkArguments_extra env (type message : string) (s : Store) :
  result (checkArguments env (JStr type) (JStr message) JNull s) = Normal true
  /\ (forall elems,
        result (checkArguments env (JStr type) (JStr message) (JArr elems) s)
        = Normal true)
  /\ result (checkArguments env (JStr type) (JStr message) JUndefined s)
     = Normal false
  /\ (forall extra,
        primitive extra = true ->
        result (checkArguments env (JStr type) (JStr message) extra s)
        = Normal false)
  /\ (log env (JStr message) JUndefined
      = (mainLog env (JStr "log") (JStr message) JNull ;; ret JUndefined)
      /\ warn env (JStr message) JUndefined
         = (mainLog env (JStr "warn") (JStr message) JNull ;; ret JUndefined)
      /\ error env (JStr message) JUndefined
         = (mainLog env (JStr "error") (JStr message) JNull ;; ret JUndefined))
  /\ typeof (default_null JUndefined) = "object".
Proof.
  repeat split; try reflexivity; try (intros; now rewrite checkArguments_result).
  intros extra Hp. rewrite checkArguments_result.
  destruct extra; try discriminate Hp; reflexivity.
Qed.

Lemma checkArguments_extra_witness :
  primitive (JNum 42) = true
  /\ result (checkArguments production (JStr "warn") (JStr "disk full") (JNum 42) None)
     = Normal false.
Proof.
  split; [reflexivity |].
  exact (proj1 (proj2 (proj2 (proj2
           (checkArguments_extra production "warn" "disk full" None))))
           (JNum 42) eq_refl).
Defined.

(** C8: in normal mode a call whose arguments fail validation returns
    [false], leaves the store as it was and makes no call at all: no
    probe, no send, no write. *)
Theorem mainLog_rejects_invalid env type message extra (s : Store) :
  DEV env = false ->
  typeof type <> "string" \/ typeof message <> "string"
  \/ typeof extra <> "object" ->
  mainLog env type message extra s = (Normal (JBool false), s, []).
Proof.
  intros Hdev Hbad.
  assert (Hc : String.eqb (typeof type) "string"
               && String.eqb (typeof message) "string"
               && String.eqb (typeof extra) "object" = false).
  { destruct Hbad as [H | [H | H]]; apply String.eqb_neq in H; rewrite H;
      rewrite ?andb_false_r; reflexivity. }
  unfold mainLog, checkArguments. rewrite Hdev, Hc. reflexivity.
Qed.

Lemma mainLog_rejects_invalid_witness :
  mainLog production (JStr "error") (JStr "disk full") (JNum 42) (Some "{}")
  = (Normal (JBool false), Some "{}", []).
Proof.
  apply mainLog_rejects_invalid; [reflexivity |].
  right; right. discriminate.
Defined.

(** ** Flush coordinator *)

Ltac run_flush :=
  cbv [attemptToEmptyLocalLogs try_catch bind lift ret emit console_error
       checkAsyncStorage bulkSendLog asyncRemoveItem stored_value
       result store_after effects fst snd app].

Ltac split_all := repeat match goal with |- _ /\ _ => split end.





(** ** Dispatch on a poor connection *)

Ltac run_dispatch :=
  cbv [logLocally saveEntry saveInAsyncStorage checkAsyncStorage
       try_catch bind lift ret emit console_error sendLog NetInfo_fetch
       result store_after effects fst snd app written].

Ltac log_leaf :=
  cbn; split_all;
  [ reflexivity
  | intros ? ?;
    first [ discriminate
          | match goal with
            | H : Normal _ = Normal _ |- _ => injection H as <-
            end; split; reflexivity ]
  | intros ? ?;
    first [ discriminate
          | split; [intros [? Hin]; cbn in Hin; intuition discriminate
                   | reflexivity] ]
  | intros ? ? ? Hin; cbn in Hin; intuition discriminate ].

(** What [logLocally] does with a severity it buffers. *)
Lemma logLocally_severe env type message extra (s : Store) :
  severe type = true ->
  let r := logLocally env type message extra s in
  result r = Normal tt
  /\ (forall text,
        bufferedText env type message extra s = Normal text ->
        effects r = [CheckAsyncStorage; SaveInAsyncStorage text]
        /\ store_after r = if storage_save env then Some text else s)
  /\ (forall e,
        bufferedText env type message extra s = Throw e ->
        ~ written r /\ store_after r = s)
  /\ (forall t m x, ~ In (SendLog t m x) (effects r)).
Proof.
  intros Hsev r. subst r. unfold severe in Hsev.
  unfold logLocally, bufferedText, priorLog. rewrite Hsev.
  run_dispatch.
  destruct (storage_read env); [| log_leaf].
  destruct s as [old |].
  - destruct (JSON_parse env old) as [parsed | e0]; [| log_leaf].
    destruct (Z.of_nat (String.length old) * 8
              <? MAX_LOCAL_ERROR_LOG_SIZE env)%Z.
    + destruct (formatLogEntry env type message extra parsed)
        as [newLog | e0]; [| log_leaf].
      destruct (JSON_stringify env newLog); log_leaf.
    + destruct (removeKeysFromErrorLog parsed) as [sliced | e0]; [| log_leaf].
      destruct (formatLogEntry env type message extra sliced)
        as [newLog | e0]; [| log_leaf].
      destruct (JSON_stringify env newLog); log_leaf.
  - destruct (formatLogEntry env type message extra JNull)
      as [newLog | e0]; [| log_leaf].
    destruct (JSON_stringify env newLog); log_leaf.
Qed.

(** The three ways a probe reports a poor connection: disconnected
    (with details to read when the medium is cellular), a medium that
    is neither wifi nor cellular, or cellular below "4g". *)
Lemma poorConnection_cases state :
  (truthy (isConnected state) = false
   /\ (state_type state = JStr "cellular" -> nullish (details state) = false))
  \/ (state_type state <> JStr "wifi" /\ state_type state <> JStr "cellular")
  \/ (state_type state = JStr "cellular"
      /\ nullish (details state) = false
      /\ ~ topTier (details state)) ->
  poorConnection state.
Proof.
  assert (Hread : forall d, nullish d = false ->
            get_prop d "cellularGeneration" = Normal (cellularGeneration d)).
  { intros d Hd. unfold cellularGeneration.
    destruct (get_prop d "cellularGeneration") eqn:Hg; [reflexivity |].
    destruct d; try discriminate. simpl in Hg. destruct (assoc _ _); discriminate. }
  unfold poorConnection, probedGeneration, strongConnection.
  intros [(Hoff & Hd) | [(Hw & Hc) | (Hc & Hd & Htop)]].
  - destruct (strict_eq_str (state_type state) "cellular") eqn:Hcell.
    + apply strict_eq_str_true in Hcell. specialize (Hd Hcell).
      exists (cellularGeneration (details state)). rewrite Hoff.
      split; [now apply Hread | reflexivity].
    + exists JNull. rewrite Hoff. split; reflexivity.
  - apply strict_eq_str_false in Hw, Hc. rewrite Hw, Hc.
    exists JNull. split; [reflexivity | apply andb_false_r].
  - exists (cellularGeneration (details state)). rewrite Hc.
    cbn [strict_eq_str String.eqb Ascii.eqb Bool.eqb orb andb].
    split; [now apply Hread |].
    apply strict_eq_str_false in Htop. rewrite Htop. apply andb_false_r.
Qed.

(** Any other severity: [logLocally] does nothing at all. *)
Lemma logLocally_not_severe env type message extra (s : Store) :
  severe type = false ->
  logLocally env type message extra s = (Normal tt, s, []).
Proof.
  unfold severe, logLocally. intros ->. reflexivity.
Qed.

Lemma logLocally_completes env type message extra (s : Store) :
  result (logLocally env type message extra s) = Normal tt.
Proof.
  destruct (severe type) eqn:Hsev.
  - apply (logLocally_severe env type message extra s Hsev).
  - now rewrite logLocally_not_severe.
Qed.





(** ** Buffer trimming *)

Lemma assoc_not_in k props :
  ~ In k (keys props) -> assoc k props = None.
Proof.
  induction props as [| [k' v] rest IH]; simpl; [reflexivity |].
  intros H. destruct (String.eqb_spec k k') as [-> | _].
  - exfalso. apply H. now left.
  - apply IH. intros Hin. apply H. now right.
Qed.

(** Setting a key the object does not have appends the property. *)
Lemma obj_set_fresh props k v :
  ~ In k (keys props) -> obj_set props k v = (props ++ [(k, v)])%list.
Proof.
  induction props as [| [k' x] rest IH]; simpl; [reflexivity |].
  intros H. destruct (String.eqb_spec k k') as [-> | _].
  - exfalso. apply H. now left.
  - f_equal. apply IH. intros Hin. apply H. now right.
Qed.

(** Reading, off an object with distinct keys, the key found at a given
    position yields the value found there. *)
Lemma assoc_at props i k v :
  NoDup (keys props) ->
  nth_error props i = Some (k, v) ->
  assoc k props = Some v.
Proof.
  revert i. induction props as [| [k' x] rest IH]; intros i Hnd Hi.
  - destruct i; discriminate.
  - simpl. inversion Hnd as [| ? ? Hnotin Hnd']; subst.
    destruct i as [| i]; simpl in Hi.
    + injection Hi as -> ->. now rewrite String.eqb_refl.
    + destruct (String.eqb_spec k k') as [-> | _].
      * exfalso. apply Hnotin. apply nth_error_In in Hi.
        change k' with (fst (k', v)). now apply in_map.
      * eapply IH; eauto.
Qed.

Lemma skipn_cons_nth {A} (l : list A) i x :
  nth_error l i = Some x -> skipn i l = x :: skipn (S i) l.
Proof.
  revert i. induction l as [| y l IH]; intros [| i] H; try discriminate.
  - injection H as ->. reflexivity.
  - simpl in H. apply IH in H. exact H.
Qed.

Lemma keys_skipn_notin props i k v :
  NoDup (keys props) ->
  nth_error props i = Some (k, v) ->
  ~ In k (keys (skipn (S i) props)).
Proof.
  revert i. induction props as [| [k' x] rest IH]; intros i Hnd Hi.
  - destruct i; discriminate.
  - inversion Hnd as [| ? ? Hnotin Hnd']; subst.
    destruct i as [| i]; simpl in Hi.
    + injection Hi as -> ->. exact Hnotin.
    + change (skipn (S (S i)) ((k', x) :: rest)) with (skipn (S i) rest).
      eapply IH; eauto.
Qed.

(** The loop, entered at [index] with the properties from [index] on
    already copied (newest first), ends with the properties from
    position [length / 2] on, newest first. *)
Lemma removeKeys_loop_spec props index :
  NoDup (keys props) ->
  length props / 2 <= index <= length props ->
  removeKeys_loop (JObj props) (keys props) (length props) index
    (rev (skipn index props))
  = rev (skipn (length props / 2) props).
Proof.
  intros Hnd. induction index as [| i IH]; intros Hi.
  - cbn [removeKeys_loop]. replace (length props / 2) with 0 by lia.
    reflexivity.
  - cbn [removeKeys_loop].
    destruct (Nat.ltb_spec (length props) (2 * S i)) as [Hlt | Hge].
    + destruct (nth_error props i) as [[k v] |] eqn:Hnth.
      2:{ apply nth_error_None in Hnth. lia. }
      assert (Hk : nth i (keys props) "undefined" = k).
      { unfold keys. apply nth_error_nth.
        rewrite nth_error_map, Hnth. reflexivity. }
      rewrite Hk. unfold own_get. cbn [own_props].
      rewrite (assoc_at props i k v Hnd Hnth).
      rewrite obj_set_fresh.
      2:{ unfold keys. rewrite map_rev, <- in_rev.
          apply (keys_skipn_notin props i k v Hnd Hnth). }
      replace (rev (skipn (S i) props) ++ [(k, v)])%list
        with (rev (skipn i props))
        by (rewrite (skipn_cons_nth props i (k, v) Hnth); reflexivity).
      apply IH.
      assert (length props / 2 < S i)
        by (apply Nat.Div0.div_lt_upper_bound; lia).
      lia.
    + assert (Hle : S i <= length props / 2)
        by (apply Nat.div_le_lower_bound; lia).
      replace (length props / 2) with (S i) by lia. reflexivity.
Qed.

(** Trimming an object with distinct keys keeps the properties of the
    second half of the enumeration, in reverse order. *)
Lemma removeKeysFromErrorLog_spec props :
  NoDup (keys props) ->
  removeKeysFromErrorLog (JObj props)
  = Normal (JObj (rev (skipn (length props / 2) props))).
Proof.
  intros Hnd. unfold removeKeysFromErrorLog, Object_keys. cbn [own_props].
  fold (keys props). unfold keys at 2 3. rewrite length_map.
  rewrite <- (removeKeys_loop_spec props (length props) Hnd).
  - rewrite skipn_all. reflexivity.
  - split; [apply Nat.Div0.div_le_upper_bound; lia | lia].
Qed.

Section Trimming.

Variable instant : string -> nat.

Lemma chronological_NoDup props :
  chronological instant props -> NoDup (keys props).
Proof.
  induction 1 as [| p rest Hs IH Hall]; simpl; constructor; [| exact IH].
  intros Hin. apply in_map_iff in Hin. destruct Hin as (q & Hq & Hin).
  rewrite Forall_forall in Hall. specialize (Hall q Hin).
  unfold older in Hall. rewrite Hq in Hall. lia.
Qed.

Lemma newerCount_le k props : newerCount instant k props <= length props.
Proof. apply filter_length_le. Qed.

Lemma newerCount_all_newer k rest :
  Forall (fun q => instant k < instant (fst q)) rest ->
  newerCount instant k rest = length rest.
Proof.
  unfold newerCount. induction 1 as [| q rest Hq _ IH]; simpl; [reflexivity |].
  apply Nat.ltb_lt in Hq. rewrite Hq. simpl. now rewrite IH.
Qed.

(** In a chronological buffer the entries from position [m] on are the
    [length - m] newest ones. *)
Lemma skipn_newest props m entry :
  chronological instant props ->
  In entry (skipn m props) <-> amongNewest instant (length props - m) props entry.
Proof.
  unfold amongNewest. intros Hc. revert m entry.
  induction Hc as [| p rest Hs IH Hall]; intros m entry.
  - destruct m; simpl; tauto.
  - assert (Hrest : forall q, In q rest ->
                      newerCount instant (fst q) (p :: rest) = newerCount instant (fst q) rest).
    { intros q Hq. rewrite Forall_forall in Hall. specialize (Hall q Hq).
      unfold older in Hall. unfold newerCount. simpl.
      destruct (Nat.ltb_spec (instant (fst q)) (instant (fst p))); [lia |].
      reflexivity. }
    assert (Hp : newerCount instant (fst p) (p :: rest) = length rest).
    { unfold newerCount. simpl. rewrite Nat.ltb_irrefl.
      apply newerCount_all_newer. exact Hall. }
    assert (Hin : forall q, In q rest -> newerCount instant (fst q) rest < length rest).
    { intros q Hq. specialize (IH 0 q). simpl in IH.
      rewrite Nat.sub_0_r in IH. now apply IH. }
    destruct m as [| m].
    + cbn [skipn length]. rewrite Nat.sub_0_r. split; [| tauto].
      intros H. split; [exact H |]. destruct H as [<- | H].
      * rewrite Hp. lia.
      * rewrite (Hrest _ H). specialize (Hin _ H). lia.
    + cbn [skipn length Nat.sub]. rewrite IH. split.
      * intros [H Hn]. split; [now right |]. now rewrite Hrest.
      * intros [[<- | H] Hn].
        -- rewrite Hp in Hn. lia.
        -- split; [exact H |]. now rewrite <- Hrest.
Qed.

(** Trimming a buffer of N entries that enumerates in chronological
    order returns a buffer of (N + 1) / 2 entries, and an entry (a key
    with its value) is in the result exactly when it is one of the
    (N + 1) / 2 chronologically newest entries of the buffer; every
    other entry is gone, whatever its age or severity. *)
Lemma removeKeysFromErrorLog_newest_half props :
  chronological instant props ->
  exists kept,
    removeKeysFromErrorLog (JObj props) = Normal (JObj kept)
    /\ length kept = (length props + 1) / 2
    /\ forall entry,
         In entry kept
         <-> amongNewest instant ((length props + 1) / 2) props entry.
Proof.
  intros Hc.
  assert (Hhalf : length props - length props / 2 = (length props + 1) / 2).
  { pose proof (Nat.div_mod_eq (length props) 2) as H1.
    pose proof (Nat.mod_upper_bound (length props) 2 ltac:(lia)) as H2.
    apply (Nat.div_unique _ _ _ (1 - length props mod 2)); lia. }
  exists (rev (skipn (length props / 2) props)). split_all.
  - apply removeKeysFromErrorLog_spec, chronological_NoDup, Hc.
  - rewrite length_rev, length_skipn. exact Hhalf.
  - intros entry. rewrite <- in_rev, <- Hhalf. now apply skipn_newest.
Qed.

End Trimming.

Lemma removeKeysFromErrorLog_newest_half_witness :
  exists kept,
    removeKeysFromErrorLog
      (JObj [sampleEntry 1; sampleEntry 2; sampleEntry 3; sampleEntry 4;
             sampleEntry 5])
    = Normal (JObj kept)
    /\ length kept = 3.
Proof.
  assert (Hc : chronological sampleInstant
                 [sampleEntry 1; sampleEntry 2; sampleEntry 3; sampleEntry 4;
                  sampleEntry 5]).
  { unfold chronological, older.
    repeat (constructor; [| repeat constructor; vm_compute; lia]). constructor. }
  destruct (removeKeysFromErrorLog_newest_half sampleInstant _ Hc)
    as (kept & Hk & Hlen & _).
  exists kept. split; [exact Hk | exact Hlen].
Defined.

(** The buffer the logger itself stores after trimming five entries
    logged at seconds 31 to 35 and then logging at seconds 36 and 37. *)
Lemma trimmed_then_appended :
  removeKeysFromErrorLog
    (JObj [sampleEntry 1; sampleEntry 2; sampleEntry 3; sampleEntry 4;
           sampleEntry 5])
  = Normal (JObj [sampleEntry 5; sampleEntry 4; sampleEntry 3])
  /\ crashAt 6 (JObj [sampleEntry 5; sampleEntry 4; sampleEntry 3])
     = Normal (JObj [sampleEntry 5; sampleEntry 4; sampleEntry 3; sampleEntry 6])
  /\ crashAt 7 (JObj [sampleEntry 5; sampleEntry 4; sampleEntry 3; sampleEntry 6])
     = Normal (JObj [sampleEntry 5; sampleEntry 4; sampleEntry 3; sampleEntry 6;
                     sampleEntry 7]).
Proof. repeat split; reflexivity. Qed.

(** C4: on the five-entry buffer above, trimming keeps the entry of
    second 33 and drops those of seconds 34 and 35, which are newer: the
    three entries kept are not the three chronologically newest. *)
Theorem second_trim_drops_newer_entries :
  let buffer := [sampleEntry 5; sampleEntry 4; sampleEntry 3; sampleEntry 6;
                 sampleEntry 7] in
  let kept := [sampleEntry 7; sampleEntry 6; sampleEntry 3] in
  removeKeysFromErrorLog (JObj buffer) = Normal (JObj kept)
  /\ (length buffer + 1) / 2 = 3
  /\ amongNewest sampleInstant 3 buffer (sampleEntry 5)
  /\ ~ In (sampleEntry 5) kept
  /\ ~ amongNewest sampleInstant 3 buffer (sampleEntry 3)
  /\ In (sampleEntry 3) kept.
Proof.
  cbv zeta. split_all.
  - reflexivity.
  - reflexivity.
  - split; [cbn; tauto | vm_compute; lia].
  - intros [H | [H | [H | []]]]; vm_compute in H; discriminate H.
  - intros [_ H]. vm_compute in H. lia.
  - cbn. tauto.
Qed.

(** C5: trimming a four-entry buffer held in chronological order gives
    a buffer that enumerates newest first, and the entry logged next is
    put after the oldest one kept: the enumeration order of the buffer
    is then the chronological order neither forwards nor backwards. *)
Theorem trim_reverses_order :
  let buffer := [sampleEntry 1; sampleEntry 2; sampleEntry 3; sampleEntry 4] in
  chronological sampleInstant buffer
  /\ removeKeysFromErrorLog (JObj buffer)
     = Normal (JObj [sampleEntry 4; sampleEntry 3])
  /\ ~ chronological sampleInstant [sampleEntry 4; sampleEntry 3]
  /\ crashAt 5 (JObj [sampleEntry 4; sampleEntry 3])
     = Normal (JObj [sampleEntry 4; sampleEntry 3; sampleEntry 5])
  /\ ~ chronological sampleInstant [sampleEntry 4; sampleEntry 3; sampleEntry 5]
  /\ ~ chronological sampleInstant
        (rev [sampleEntry 4; sampleEntry 3; sampleEntry 5]).
Proof.
  cbv zeta. split_all; try reflexivity.
  - unfold chronological, older.
    repeat (constructor; [| repeat constructor; vm_compute; lia]). constructor.
  - intros H. inversion H as [| ? ? _ Hall]; subst.
    inversion Hall as [| ? ? Hlt _]; subst. vm_compute in Hlt. lia.
  - intros H. inversion H as [| ? ? _ Hall]; subst.
    inversion Hall as [| ? ? Hlt _]; subst. vm_compute in Hlt. lia.
  - cbn [rev app]. intros H. inversion H as [| ? ? _ Hall]; subst.
    inversion Hall as [| ? ? Hlt _]; subst. vm_compute in Hlt. lia.
Qed.

(** ** Appending *)

Section Appending.

Variable instant : string -> nat.

Lemma obj_set_keys props k v entry :
  In entry (obj_set props k v) -> fst entry = k \/ In (fst entry) (keys props).
Proof.
  induction props as [| [k' x] rest IH]; simpl.
  - intros [<- | []]. now left.
  - destruct (String.eqb_spec k k') as [-> | _]; simpl.
    + intros [<- | H]; [now left |]. right. right.
      now apply in_map.
    + intros [<- | H]; [right; now left |].
      destruct (IH H); [now left | right; now right].
Qed.

(** Setting a key that is not older than any key of a chronological
    buffer keeps the buffer chronological. *)
Lemma obj_set_chronological props k v :
  chronological instant props ->
  Forall (fun p => instant (fst p) < instant k \/ fst p = k) props ->
  chronological instant (obj_set props k v).
Proof.
  unfold chronological. intros Hc.
  induction Hc as [| [k' x] rest Hs IH Hall]; intros Hclock; simpl.
  - repeat constructor.
  - inversion Hclock as [| ? ? Hhead Htail]; subst.
    destruct (String.eqb_spec k k') as [-> | Hneq].
    + constructor; assumption.
    + constructor; [now apply IH |].
      apply Forall_forall. intros entry Hin.
      destruct (obj_set_keys _ _ _ _ Hin) as [Hk | Hk].
      * unfold older. rewrite Hk. simpl in Hhead.
        destruct Hhead; [assumption | congruence].
      * apply in_map_iff in Hk. destruct Hk as (q & Hq & Hin').
        rewrite Forall_forall in Hall. specialize (Hall q Hin').
        unfold older in *. now rewrite <- Hq.
Qed.

(** Appending with [formatLogEntry] keeps a chronological buffer
    chronological, as long as the clock has not gone back behind the
    newest key. *)
Lemma formatLogEntry_chronological env type message extra props :
  chronological instant props ->
  Forall (fun p => instant (fst p) < instant (Date_string env)
                   \/ fst p = Date_string env) props ->
  forall newLog,
    formatLogEntry env type message extra (JObj props) = Normal newLog ->
    exists props', newLog = JObj props' /\ chronological instant props'.
Proof.
  intros Hc Hclock newLog. unfold formatLogEntry, spread. cbn [own_props].
  destruct (JSON_stringify env extra) as [text | e]; [| discriminate].
  intros [= <-]. eexists. split; [reflexivity |].
  now apply obj_set_chronological.
Qed.

End Appending.

(** * Further properties *)

(** ** The classifier, in full *)

Lemma get_prop_throws d name :
  (exists e, get_prop d name = Throw e) <-> nullish d = true.
Proof.
  destruct d; simpl; split; intros H; try discriminate;
    try (destruct H; discriminate); eauto.
  destruct (assoc name props); destruct H; discriminate.
Qed.

Lemma get_prop_generation d :
  nullish d = false ->
  get_prop d "cellularGeneration" = Normal (cellularGeneration d).
Proof.
  intros Hd. unfold cellularGeneration.
  destruct (get_prop d "cellularGeneration") eqn:Hg; [reflexivity |].
  assert (nullish d = true)
    by (apply (get_prop_throws d "cellularGeneration"); eauto).
  congruence.
Qed.

(** X1: the classifier answers [true] in exactly two situations: the
    current medium is wifi and the previous one is falsy, "none" or the
    literal "unknow"; or the previous medium is cellular and the pair is
    a generation upgrade. *)
Theorem classifier_true_iff
    prevConnectionType prevConnectionDetails connectionType connectionDetails :
  checkUserIsBackOnFullConnection
    prevConnectionType prevConnectionDetails connectionType connectionDetails
  = Normal true
  <-> (connectionType = JStr "wifi"
       /\ (truthy prevConnectionType = false
           \/ prevConnectionType = JStr "none"
           \/ prevConnectionType = JStr "unknow"))
      \/ (prevConnectionType = JStr "cellular"
          /\ generationUpgrade prevConnectionDetails connectionDetails).
Proof.
  split.
  - intros H.
    destruct (strict_eq_str prevConnectionType "cellular") eqn:Hc.
    + apply strict_eq_str_true in Hc. subst. right. split; [reflexivity |].
      exact (proj1 (cellular_branch _ _ _) H).
    + left. unfold checkUserIsBackOnFullConnection in H. rewrite Hc in H.
      destruct (strict_eq_str connectionType "wifi") eqn:Hw.
      * apply strict_eq_str_true in Hw. split; [exact Hw |].
        rewrite !andb_true_r in H.
        destruct (truthy prevConnectionType); [| now left]. cbn [negb] in H.
        destruct (strict_eq_str prevConnectionType "none") eqn:Hn;
          [apply strict_eq_str_true in Hn; tauto |].
        destruct (strict_eq_str prevConnectionType "unknow") eqn:Hu;
          [apply strict_eq_str_true in Hu; tauto | discriminate].
      * rewrite !andb_false_r in H. discriminate.
  - intros [(-> & H) | (-> & H)].
    + now apply offline_to_wifi_true.
    + exact (proj2 (cellular_branch _ _ _) H).
Qed.

(** X2: leaving a cellular link for wifi is not reported as an upgrade:
    with both details at hand the answer is [false] unless the wifi
    details themselves carry the generation "4g". *)
Theorem cellular_to_wifi_false prevConnectionDetails connectionDetails :
  nullish prevConnectionDetails = false ->
  nullish connectionDetails = false ->
  ~ topTier connectionDetails ->
  checkUserIsBackOnFullConnection
    (JStr "cellular") prevConnectionDetails (JStr "wifi") connectionDetails
  = Normal false.
Proof.
  intros Hp Hc Htop.
  unfold checkUserIsBackOnFullConnection.
  cbn [truthy strict_eq_str negb andb String.eqb Ascii.eqb Bool.eqb].
  rewrite (get_prop_generation _ Hp), (get_prop_generation _ Hc).
  unfold topTier in Htop. apply strict_eq_str_false in Htop. rewrite Htop.
  rewrite andb_false_r.
  destruct (truthy (cellularGeneration prevConnectionDetails)
            && negb (strict_eq_str (cellularGeneration prevConnectionDetails) "4g"));
    reflexivity.
Qed.

Lemma cellular_to_wifi_false_witness :
  checkUserIsBackOnFullConnection
    (JStr "cellular") (JObj [("cellularGeneration", JStr "3g")])
    (JStr "wifi") (JObj [("isConnectionExpensive", JBool false)])
  = Normal false.
Proof.
  apply cellular_to_wifi_false; [reflexivity | reflexivity |].
  unfold topTier. discriminate.
Defined.

(** X3: the classifier throws exactly when the previous medium is
    cellular and a details value it has to read is [null] or
    [undefined]: the previous one, or the current one once the previous
    generation is present and not "4g". *)
Theorem classifier_throws_iff
    prevConnectionType prevConnectionDetails connectionType connectionDetails :
  (exists e,
     checkUserIsBackOnFullConnection
       prevConnectionType prevConnectionDetails connectionType connectionDetails
     = Throw e)
  <-> prevConnectionType = JStr "cellular"
      /\ (nullish prevConnectionDetails = true
          \/ (generationPresent prevConnectionDetails
              /\ ~ topTier prevConnectionDetails
              /\ nullish connectionDetails = true)).
Proof.
  destruct (strict_eq_str prevConnectionType "cellular") eqn:Hc.
  2:{ split.
      - intros [e H].
        destruct (not_cellular_total prevConnectionType prevConnectionDetails
                    connectionType connectionDetails) as [b Hb];
          [now apply strict_eq_str_false | congruence].
      - intros [H _]. apply strict_eq_str_false in Hc. contradiction. }
  apply strict_eq_str_true in Hc. subst.
  unfold checkUserIsBackOnFullConnection, generationPresent, topTier.
  cbn [truthy strict_eq_str negb andb String.eqb Ascii.eqb Bool.eqb].
  destruct (nullish prevConnectionDetails) eqn:Hp.
  - destruct (proj2 (get_prop_throws prevConnectionDetails "cellularGeneration") Hp)
      as [e He].
    rewrite He. split; [intros _; tauto | intros _; eauto].
  - rewrite (get_prop_generation _ Hp).
    set (g := cellularGeneration prevConnectionDetails).
    destruct (truthy g) eqn:Ht; cbn [andb].
    2:{ split; [intros [e H]; discriminate |].
        intros (_ & [H | (H & _)]); discriminate. }
    destruct (strict_eq_str g "4g") eqn:H4; cbn [negb].
    + apply strict_eq_str_true in H4.
      split; [intros [e H]; discriminate |].
      intros (_ & [H | (_ & H & _)]); [discriminate | contradiction].
    + apply strict_eq_str_false in H4.
      destruct (nullish connectionDetails) eqn:Hcd.
      * destruct (proj2 (get_prop_throws connectionDetails "cellularGeneration") Hcd)
          as [e He].
        rewrite He. split; [intros _; tauto | intros _; eauto].
      * rewrite (get_prop_generation _ Hcd).
        split.
        -- intros [e H].
           destruct (truthy (cellularGeneration connectionDetails)
                     && strict_eq_str (cellularGeneration connectionDetails) "4g");
             discriminate.
        -- intros (_ & [H | (_ & _ & H)]); discriminate.
Qed.

(** ** Dispatch, case by case *)


(** [mainLog] in normal mode with valid arguments, by outcome of the
    probe. *)
Lemma mainLog_production env type message extra (s : Store) :
  DEV env = false ->
  validArguments type message extra = true ->
  mainLog env type message extra s
  = match fetch_result env with
    | Throw e =>
        (Normal JNull, s,
         [NetInfoFetch;
          ConsoleError
            [JStr "[RNCustomLogger] Error fetching connection state"; e]])
    | Normal state =>
        match probedGeneration state with
        | Throw e =>
            (Normal JNull, s,
             [NetInfoFetch;
              ConsoleError
                [JStr "[RNCustomLogger] Error fetching connection state"; e]])
        | Normal gen =>
            if strongConnection (isConnected state) (state_type state) gen
            then (Normal JNull, s, [NetInfoFetch; SendLog type message extra])
            else
              (Normal JNull,
               store_after (logLocally env type message extra s),
               NetInfoFetch :: effects (logLocally env type message extra s))
        end
    end.
Proof.
  intros Hdev Hvalid. unfold validArguments in Hvalid.
  pose proof (logLocally_completes env type message extra s) as Hl.
  unfold mainLog, checkArguments. rewrite Hdev, Hvalid.
  unfold probedGeneration.
  cbv [bind try_catch ret lift NetInfo_fetch negb console_error emit sendLog].
  destruct (fetch_result env) as [state | e]; [| reflexivity].
  destruct (strict_eq_str (state_type state) "cellular").
  - destruct (get_prop (details state) "cellularGeneration") as [gen | e];
      [| reflexivity].
    destruct (strongConnection (isConnected state) (state_type state) gen);
      [reflexivity |].
    destruct (logLocally env type message extra s) as [[rl sl] tl].
    cbn in Hl. subst rl. cbn. now rewrite app_nil_r.
  - destruct (strongConnection (isConnected state) (state_type state) JNull);
      [reflexivity |].
    destruct (logLocally env type message extra s) as [[rl sl] tl].
    cbn in Hl. subst rl. cbn. now rewrite app_nil_r.
Qed.

(** X4: in development mode [mainLog] only writes to the console: it
    returns [true] and leaves the store alone, it neither probes nor
    sends, and arguments that fail validation earn a warning but are
    logged all the same. *)
Theorem mainLog_dev env type message extra (s : Store) :
  DEV env = true ->
  mainLog env type message extra s
  = (Normal (JBool true), s,
     ((if validArguments type message extra then []
       else [ConsoleWarn
               [JStr "[RNCustomLogger] you passed invalid arguments, message should be a string and extra should be an object"]])
      ++ [ConsoleLog [JStr "[RNCustomLogger] "; type; message; extra]])%list).
Proof.
  intros Hdev. unfold mainLog, checkArguments, validArguments. rewrite Hdev.
  destruct (String.eqb (typeof type) "string"
            && String.eqb (typeof message) "string"
            && String.eqb (typeof extra) "object"); reflexivity.
Qed.

Lemma mainLog_dev_witness :
  mainLog (sampleEnvDev) (JStr "error") (JNum 7) JUndefined (Some "{}")
  = (Normal (JBool true), Some "{}",
     [ConsoleWarn
        [JStr "[RNCustomLogger] you passed invalid arguments, message should be a string and extra should be an object"];
      ConsoleLog [JStr "[RNCustomLogger] "; JStr "error"; JNum 7; JUndefined]]).
Proof. exact (mainLog_dev sampleEnvDev (JStr "error") (JNum 7) JUndefined (Some "{}") eq_refl). Defined.

(** [mainLog] never throws; it returns [true], [false] or [null]. *)
Lemma mainLog_result env type message extra (s : Store) :
  exists v,
    result (mainLog env type message extra s) = Normal v
    /\ (v = JBool true \/ v = JBool false \/ v = JNull).
Proof.
  destruct (DEV env) eqn:Hdev.
  - unfold mainLog, checkArguments. rewrite Hdev.
    exists (JBool true).
    destruct (String.eqb (typeof type) "string"
              && String.eqb (typeof message) "string"
              && String.eqb (typeof extra) "object"); cbn; auto.
  - destruct (validArguments type message extra) eqn:Hvalid.
    + rewrite (mainLog_production _ _ _ _ _ Hdev Hvalid). exists JNull.
      split; [| auto].
      destruct (fetch_result env) as [state | e]; [| reflexivity].
      destruct (probedGeneration state) as [gen | e]; [| reflexivity].
      destruct (strongConnection _ _ gen); reflexivity.
    + unfold validArguments in Hvalid.
      unfold mainLog, checkArguments. rewrite Hdev, Hvalid.
      exists (JBool false). cbn. auto.
Qed.

(** X5: in normal mode, with valid arguments, a probe that reports a
    connected wifi link, or a connected cellular link of generation
    "4g", makes [mainLog] send the event to the remote sink, once, and
    do nothing else: the store is neither read nor written. *)
Theorem mainLog_strong_connection env type message extra (s : Store) state :
  DEV env = false ->
  validArguments type message extra = true ->
  fetch_result env = Normal state ->
  truthy (isConnected state) = true ->
  state_type state = JStr "wifi"
  \/ (state_type state = JStr "cellular"
      /\ get_prop (details state) "cellularGeneration" = Normal (JStr "4g")) ->
  mainLog env type message extra s
  = (Normal JNull, s, [NetInfoFetch; SendLog type message extra]).
Proof.
  intros Hdev Hvalid Hfetch Hconn Hmedium.
  rewrite (mainLog_production _ _ _ _ _ Hdev Hvalid), Hfetch.
  unfold probedGeneration, strongConnection. rewrite Hconn.
  destruct Hmedium as [-> | (-> & ->)]; reflexivity.
Qed.

Lemma mainLog_strong_connection_witness :
  mainLog (probing (Normal onWifi)) (JStr "log") (JStr "started") JNull None
  = (Normal JNull, None,
     [NetInfoFetch; SendLog (JStr "log") (JStr "started") JNull]).
Proof.
  apply (mainLog_strong_connection (probing (Normal onWifi)) _ _ _ _ onWifi);
    try reflexivity.
  left. reflexivity.
Defined.

(** X6: when the probe fails, because [NetInfo.fetch()] rejects or
    because it reports a cellular link without details, the event is
    lost whatever its severity: [mainLog] reports the failure on the
    console, sends nothing and does not touch the store. *)
Theorem mainLog_probe_failure env type message extra (s : Store) e :
  DEV env = false ->
  validArguments type message extra = true ->
  fetch_result env = Throw e
  \/ (exists state,
        fetch_result env = Normal state
        /\ state_type state = JStr "cellular"
        /\ nullish (details state) = true
        /\ e = TypeError) ->
  mainLog env type message extra s
  = (Normal JNull, s,
     [NetInfoFetch;
      ConsoleError
        [JStr "[RNCustomLogger] Error fetching connection state"; e]]).
Proof.
  intros Hdev Hvalid Hfail.
  rewrite (mainLog_production _ _ _ _ _ Hdev Hvalid).
  destruct Hfail as [-> | (state & -> & Hc & Hd & ->)]; [reflexivity |].
  unfold probedGeneration. rewrite Hc.
  cbn [strict_eq_str String.eqb Ascii.eqb Bool.eqb].
  destruct (details state); try discriminate Hd; reflexivity.
Qed.

Lemma mainLog_probe_failure_witness :
  mainLog (probing (Throw (JStr "no network module")))
    (JStr "error") (JStr "disk full") JNull (Some "{}")
  = (Normal JNull, Some "{}",
     [NetInfoFetch;
      ConsoleError
        [JStr "[RNCustomLogger] Error fetching connection state";
         JStr "no network module"]]).
Proof.
  apply mainLog_probe_failure; try reflexivity. left. reflexivity.
Defined.


(** ** The public wrappers *)

(** A wrapper runs [mainLog] and drops what it returns. *)
Lemma wrapper_run env type message extra (s : Store) :
  let r := (mainLog env type message extra ;; ret JUndefined) s in
  result r = Normal JUndefined
  /\ store_after r = store_after (mainLog env type message extra s)
  /\ effects r = effects (mainLog env type message extra s).
Proof.
  destruct (mainLog_result env type message extra s) as (v & Hv & _).
  unfold bind, ret.
  destruct (mainLog env type message extra s) as [[rm sm] tm].
  cbn in Hv. subst rm. cbn. now rewrite app_nil_r.
Qed.


(** X9: [log] never touches the store: in development mode it prints,
    in normal mode it sends the event on a strong connection and drops
    it otherwise, severity "log" being one [logLocally] does not
    buffer. *)
Theorem log_never_touches_store env message extra (s : Store) :
  store_after (log env message extra s) = s
  /\ Forall (fun e => ~ storageCall e) (effects (log env message extra s)).
Proof.
  destruct (wrapper_run env (JStr "log") message (default_null extra) s)
    as (_ & Hs & Hf).
  unfold log. rewrite Hs, Hf. clear Hs Hf.
  set (x := default_null extra).
  destruct (DEV env) eqn:Hdev.
  { unfold mainLog, checkArguments. rewrite Hdev.
    destruct (String.eqb (typeof (JStr "log")) "string"
              && String.eqb (typeof message) "string"
              && String.eqb (typeof x) "object");
      cbn; split; try reflexivity; repeat constructor; tauto. }
  destruct (validArguments (JStr "log") message x) eqn:Hvalid.
  2:{ unfold validArguments in Hvalid.
      unfold mainLog, checkArguments. rewrite Hdev, Hvalid.
      cbn. split; [reflexivity | constructor]. }
  rewrite (mainLog_production _ _ _ _ _ Hdev Hvalid).
  rewrite (logLocally_not_severe env (JStr "log") message x s eq_refl).
  destruct (fetch_result env) as [state | e];
    [| cbn; split; [reflexivity | repeat constructor; tauto]].
  destruct (probedGeneration state) as [gen | e];
    [| cbn; split; [reflexivity | repeat constructor; tauto]].
  destruct (strongConnection _ _ gen);
    cbn; split; try reflexivity; repeat constructor; tauto.
Qed.

(** ** Formatting an entry *)

Lemma assoc_obj_set_same props k v : assoc k (obj_set props k v) = Some v.
Proof.
  induction props as [| [k' x] rest IH]; simpl.
  - now rewrite String.eqb_refl.
  - destruct (String.eqb_spec k k') as [-> | Hneq]; simpl.
    + now rewrite String.eqb_refl.
    + destruct (String.eqb_spec k k'); [contradiction | exact IH].
Qed.

Lemma assoc_obj_set_other props k v k' :
  k' <> k -> assoc k' (obj_set props k v) = assoc k' props.
Proof.
  intros Hneq. induction props as [| [k0 x] rest IH]; simpl.
  - destruct (String.eqb_spec k' k); [contradiction | reflexivity].
  - destruct (String.eqb_spec k k0) as [-> | Hk]; simpl.
    + destruct (String.eqb_spec k' k0); [contradiction | reflexivity].
    + destruct (String.eqb_spec k' k0); [reflexivity | exact IH].
Qed.

(** Setting a key the object has keeps its keys, in their order. *)
Lemma obj_set_present_keys props k v :
  In k (keys props) -> keys (obj_set props k v) = keys props.
Proof.
  induction props as [| [k' x] rest IH]; simpl; [tauto |].
  intros [<- | Hin].
  - now rewrite String.eqb_refl.
  - destruct (String.eqb_spec k k') as [-> | _]; simpl; [reflexivity |].
    f_equal. now apply IH.
Qed.

(** With a key the log does not have, the entry goes last. *)
Lemma formatLogEntry_fresh
    env (type message : string) extra parsedErrorLog serialised :
  JSON_stringify env extra = Normal serialised ->
  ~ In (Date_string env) (keys (own_props parsedErrorLog)) ->
  formatLogEntry env (JStr type) (JStr message) extra parsedErrorLog
  = Normal (JObj (own_props parsedErrorLog
                  ++ [(Date_string env,
                       JStr (entryText type message serialised))])%list).
Proof.
  intros Hjson Hfresh. unfold formatLogEntry, spread, entryText, interpolate.
  rewrite Hjson. now rewrite obj_set_fresh.
Qed.

(** X10: when the clock gives a key the log does not have yet,
    [formatLogEntry] returns the entries of the log as they were, in
    their order, followed by the new entry, whose text is "<type> -
    <message> - extra data : <extra as JSON>".  A [null] log counts as
    empty. *)
Theorem formatLogEntry_appends
    env (type message : string) extra parsedErrorLog serialised :
  JSON_stringify env extra = Normal serialised ->
  ~ In (Date_string env) (keys (own_props parsedErrorLog)) ->
  formatLogEntry env (JStr type) (JStr message) extra parsedErrorLog
  = Normal (JObj (own_props parsedErrorLog
                  ++ [(Date_string env,
                       JStr (entryText type message serialised))])%list).
Proof.
  intros Hjson Hfresh. unfold formatLogEntry, spread, entryText, interpolate.
  rewrite Hjson. now rewrite obj_set_fresh.
Qed.

Lemma formatLogEntry_appends_witness :
  formatLogEntry (atSecond 2) (JStr "warn") (JStr "slow") JNull
    (JObj [sampleEntry 1])
  = Normal (JObj [sampleEntry 1;
                  (sampleKey 2, JStr "warn - slow - extra data : null")]).
Proof.
  apply (formatLogEntry_appends (atSecond 2) "warn" "slow" JNull
           (JObj [sampleEntry 1]) "null" eq_refl).
  cbn. intros [H | []]. vm_compute in H. discriminate H.
Defined.

(** X11: reading the result of [formatLogEntry] back: the key of the
    current date holds the new entry, and every other key holds what it
    held in the log. *)
Theorem formatLogEntry_read_back
    env (type message : string) extra parsedErrorLog serialised :
  JSON_stringify env extra = Normal serialised ->
  exists props,
    formatLogEntry env (JStr type) (JStr message) extra parsedErrorLog
    = Normal (JObj props)
    /\ assoc (Date_string env) props
       = Some (JStr (entryText type message serialised))
    /\ forall k, k <> Date_string env ->
         assoc k props = assoc k (own_props parsedErrorLog).
Proof.
  intros Hjson. unfold formatLogEntry, spread, entryText, interpolate.
  rewrite Hjson. eexists. split; [reflexivity |]. split.
  - apply assoc_obj_set_same.
  - intros k Hk. now apply assoc_obj_set_other.
Qed.

Lemma formatLogEntry_read_back_witness :
  exists props,
    formatLogEntry (atSecond 1) (JStr "warn") (JStr "slow") JNull
      (JObj [sampleEntry 1])
    = Normal (JObj props)
    /\ assoc (sampleKey 1) props
       = Some (JStr (entryText "warn" "slow" "null")).
Proof.
  destruct (formatLogEntry_read_back (atSecond 1) "warn" "slow" JNull
              (JObj [sampleEntry 1]) "null" eq_refl)
    as (props & H1 & H2 & _).
  exists props. split; [exact H1 | exact H2].
Defined.

(** X12: two events formatted within the same second share their key:
    the second call keeps the keys of the log as they are, so the log
    does not grow, and the entry the key held is replaced by the new
    one. *)
Theorem formatLogEntry_same_second
    env (type message : string) extra props serialised :
  JSON_stringify env extra = Normal serialised ->
  In (Date_string env) (keys props) ->
  exists props',
    formatLogEntry env (JStr type) (JStr message) extra (JObj props)
    = Normal (JObj props')
    /\ keys props' = keys props
    /\ length props' = length props
    /\ assoc (Date_string env) props'
       = Some (JStr (entryText type message serialised)).
Proof.
  intros Hjson Hin. unfold formatLogEntry, spread, entryText, interpolate.
  cbn [own_props]. rewrite Hjson. eexists. split; [reflexivity |].
  pose proof (obj_set_present_keys props (Date_string env)
                (JStr (type ++ " - " ++ message ++ " - extra data : " ++ serialised))
                Hin) as Hkeys.
  split_all.
  - exact Hkeys.
  - apply (f_equal (@length string)) in Hkeys. unfold keys in Hkeys.
    now rewrite !length_map in Hkeys.
  - apply assoc_obj_set_same.
Qed.

Lemma formatLogEntry_same_second_witness :
  exists props',
    formatLogEntry (atSecond 1) (JStr "warn") (JStr "slow") JNull
      (JObj [sampleEntry 1; sampleEntry 2])
    = Normal (JObj props')
    /\ length props' = 2
    /\ assoc (sampleKey 1) props'
       = Some (JStr (entryText "warn" "slow" "null")).
Proof.
  destruct (formatLogEntry_same_second (atSecond 1) "warn" "slow" JNull
              [sampleEntry 1; sampleEntry 2] "null" eq_refl)
    as (props' & H1 & _ & H2 & H3).
  - cbn. left. reflexivity.
  - exists props'. split_all; assumption.
Defined.

(** ** Trimming, whatever the order of the log *)









(** X15: [removeKeysFromErrorLog] throws exactly on [null] and
    [undefined], for which [Object.keys] throws; any other value comes
    back as an object. *)
Theorem removeKeysFromErrorLog_throws_iff parsedErrorLog :
  ((exists e, removeKeysFromErrorLog parsedErrorLog = Throw e)
   <-> nullish parsedErrorLog = true)
  /\ (nullish parsedErrorLog = false ->
      exists kept, removeKeysFromErrorLog parsedErrorLog = Normal (JObj kept)).
Proof.
  unfold removeKeysFromErrorLog.
  destruct parsedErrorLog; cbn [Object_keys nullish]; split;
    try (split; [intros [e H]; discriminate | discriminate]);
    try (split; [reflexivity | eauto]);
    try discriminate; eauto.
Qed.

(** ** Buffering and flushing together *)

Lemma run_eta {A} (r : Completion A * Store * list Effect) :
  r = (result r, store_after r, effects r).
Proof. destruct r as [[c s] t]. reflexivity. Qed.



(** X17: a stored text that [JSON.parse] rejects is never repaired.
    Buffering drops the event and leaves the text where it is, and
    flushing sends nothing and removes nothing, so the text stays in the
    store and every later call meets it again. *)
Theorem unparseable_buffer_is_stuck env type message extra text e :
  JSON_parse env text = Throw e ->
  (store_after (logLocally env type message extra (Some text)) = Some text
   /\ ~ written (logLocally env type message extra (Some text)))
  /\ (store_after (attemptToEmptyLocalLogs env (Some text)) = Some text
      /\ noSend (effects (attemptToEmptyLocalLogs env (Some text)))
      /\ ~ In AsyncRemoveItem (effects (attemptToEmptyLocalLogs env (Some text)))).
Proof.
  intros Hparse. split.
  - destruct (severe type) eqn:Hsev.
    + destruct (logLocally_severe env type message extra (Some text) Hsev)
        as (_ & _ & Hfail & _).
      assert (Hb : exists e', bufferedText env type message extra (Some text)
                              = Throw e').
      { unfold bufferedText, priorLog. rewrite Hparse.
        destruct (storage_read env); eauto. }
      destruct Hb as [e' Hb]. destruct (Hfail e' Hb). tauto.
    + rewrite (logLocally_not_severe _ _ _ _ _ Hsev). split; [reflexivity |].
      intros [t []].
  - run_flush. unfold noSend.
    destruct (storage_read env); cbn [truthy];
      [| cbn; split_all; [reflexivity | intros ?; intuition discriminate
                         | intuition discriminate]].
    destruct (negb (text =? ""));
      [| cbn; split_all; [reflexivity | intros ?; intuition discriminate
                         | intuition discriminate]].
    rewrite Hparse.
    cbn; split_all; [reflexivity | intros ?; intuition discriminate
                    | intuition discriminate].
Qed.

Lemma unparseable_buffer_is_stuck_witness :
  store_after (logLocally production (JStr "error") (JStr "disk full") JNull
                 (Some "{oops"))
  = Some "{oops"
  /\ store_after (attemptToEmptyLocalLogs production (Some "{oops"))
     = Some "{oops".
Proof.
  destruct (unparseable_buffer_is_stuck production (JStr "error")
              (JStr "disk full") JNull "{oops" SyntaxError eq_refl)
    as ((H1 & _) & (H2 & _)).
  split; [exact H1 | exact H2].
Defined.

(** X18: what [logLocally] buffers is what the next flush sends.  After
    a successful save, [attemptToEmptyLocalLogs] parses the very text
    that was saved, sends it in one batch and, the sink and the store
    agreeing, leaves the store empty. *)
Theorem buffered_event_is_flushed env type message extra (s : Store) text logs v err :
  severe type = true ->
  bufferedText env type message extra s = Normal text ->
  storage_save env = true ->
  text <> "" ->
  JSON_parse env text = Normal logs ->
  bulk_result env logs = Normal v -> truthy v = true ->
  storage_remove env = Normal err -> truthy err = false ->
  store_after (logLocally env type message extra s) = Some text
  /\ attemptToEmptyLocalLogs env
       (store_after (logLocally env type message extra s))
     = (Normal tt, None, [CheckAsyncStorage; BulkSendLog logs; AsyncRemoveItem]).
Proof.
  intros Hsev Hb Hsave Hne Hparse Hbulk Hv Hrem Herr.
  destruct (logLocally_severe env type message extra s Hsev) as (_ & Hok & _).
  destruct (Hok text Hb) as (_ & Hstore). rewrite Hsave in Hstore.
  split; [exact Hstore |]. rewrite Hstore.
  assert (Hread : exists u, storage_read env = Normal u).
  { unfold bufferedText in Hb. destruct (storage_read env); [eauto | discriminate]. }
  destruct Hread as [u Hread].
  apply String.eqb_neq in Hne.
  run_flush. rewrite Hread. cbn [truthy]. rewrite Hne. cbn [negb].
  rewrite Hparse, Hbulk, Hv, Hrem, Herr. reflexivity.
Qed.

Lemma buffered_event_is_flushed_witness :
  attemptToEmptyLocalLogs flushing
    (store_after (logLocally flushing (JStr "error") (JStr "crash 0") JNull None))
  = (Normal tt, None,
     [CheckAsyncStorage; BulkSendLog (JObj [sampleEntry 0]); AsyncRemoveItem]).
Proof.
  refine (proj2 (buffered_event_is_flushed flushing (JStr "error")
                   (JStr "crash 0") JNull None _ (JObj [sampleEntry 0])
                   (JBool true) JUndefined eq_refl eq_refl eq_refl _ eq_refl
                   eq_refl eq_refl eq_refl eq_refl)).
  vm_compute. discriminate.
Defined.

(** X19: [attemptToEmptyLocalLogs] begins by reading the store and
    makes no calls but reads, batch sends, removals and console
    reports: it never saves, never probes and never sends a single
    event.  A batch it sends is the parsed text of the store. *)
Theorem attemptToEmptyLocalLogs_calls env (s : Store) :
  let r := attemptToEmptyLocalLogs env s in
  Forall flushCall (effects r)
  /\ (exists rest, effects r = CheckAsyncStorage :: rest)
  /\ (forall logs,
        In (BulkSendLog logs) (effects r) ->
        exists text, s = Some text /\ JSON_parse env text = Normal logs).
Proof.
  intros r. subst r. run_flush.
  destruct (storage_read env);
    [| cbn; split_all; [repeat constructor | eauto
                       | intros ? ?; intuition discriminate]].
  destruct s as [text |];
    [| cbn; split_all; [repeat constructor | eauto
                       | intros ? ?; intuition discriminate]].
  cbn [truthy].
  destruct (negb (text =? ""));
    [| cbn; split_all; [repeat constructor | eauto
                       | intros ? ?; intuition discriminate]].
  destruct (JSON_parse env text) as [logs | e] eqn:Hparse;
    [| cbn; split_all; [repeat constructor | eauto
                       | intros ? ?; intuition discriminate]].
  destruct (bulk_result env logs) as [v | e];
    [destruct (truthy v);
     [destruct (storage_remove env) as [err | e]; [destruct (truthy err) |] |] |];
    (cbn; split_all;
     [ repeat constructor | eexists; reflexivity
     | intros logs' [H | [H | H]];
       [ discriminate | injection H as <-; eauto
       | exfalso; intuition discriminate ] ]).
Qed.

(** X20: the first event buffered.  With nothing stored, a "warn" or
    "error" event makes [logLocally] read the store once and save once
    the serialisation of a log of one entry, keyed by the current date;
    no parsing and no trimming take place. *)
Theorem logLocally_first_entry
    env (type message : string) extra serialised text :
  severe (JStr type) = true ->
  storage_read env = Normal tt ->
  JSON_stringify env extra = Normal serialised ->
  JSON_stringify env
    (JObj [(Date_string env, JStr (entryText type message serialised))])
  = Normal text ->
  logLocally env (JStr type) (JStr message) extra None
  = (Normal tt,
     (if storage_save env then Some text else None),
     [CheckAsyncStorage; SaveInAsyncStorage text]).
Proof.
  intros Hsev Hread Hextra Htext.
  destruct (logLocally_severe env (JStr type) (JStr message) extra None Hsev)
    as (Hres & Hok & _).
  assert (Hb : bufferedText env (JStr type) (JStr message) extra None
               = Normal text).
  { unfold bufferedText, priorLog. rewrite Hread.
    rewrite (formatLogEntry_fresh env type message extra JNull serialised Hextra)
      by (intros []).
    exact Htext. }
  destruct (Hok text Hb) as (Hcalls & Hstore).
  rewrite (run_eta (logLocally env (JStr type) (JStr message) extra None)).
  now rewrite Hres, Hcalls, Hstore.
Qed.

Lemma logLocally_first_entry_witness :
  logLocally production (JStr "error") (JStr "crash 0") JNull None
  = (Normal tt,
     Some ("{" ++ sampleMember (sampleEntry 0) ++ "}"),
     [CheckAsyncStorage;
      SaveInAsyncStorage ("{" ++ sampleMember (sampleEntry 0) ++ "}")]).
Proof.
  apply (logLocally_first_entry production "error" "crash 0" JNull "null");
    reflexivity.
Defined.
